(** * util/workqueue: the rate-limiting work queue

    A shallow embedding of [rate_limiting_queue.go].  The file declares one
    struct, [rateLimitingType], that embeds a [DelayingInterface] and holds a
    [RateLimiter]; three methods of its own; and four constructors.  Both
    collaborators are Go interfaces: they are type classes here, a method
    being a function from the state of the object it is called on to a
    result and the state afterwards.  The methods of [rateLimitingType] run
    in a small state monad over the two objects that also records every call
    made to a collaborator, so that "calls it once" is a statement about the
    recorded calls.  The three methods are given a second time over
    collaborators whose calls may panic or block and a rate limiter that may
    be [nil], for what depends on a call returning at all. *)

From Stdlib Require Import ZArith Lia.
From stdpp Require Import base option list strings gmap.

Set Default Proof Using "Type".
#[local] Set Warnings "-clear-no-such-hyp".

(** [time.Duration] is an [int64] count of nanoseconds and [int] is 64 bits
    wide on the platforms of the package.  The file under study does no
    arithmetic on either: it only hands the values on. *)
Abbreviation Duration := Z (only parsing).
Abbreviation int := Z (only parsing).

(** ** The two interfaces the queue is built on *)

(** [RateLimiter[T]]: [When(item T) time.Duration], [Forget(item T)],
    [NumRequeues(item T) int].  [R] is the state of the limiter. *)
Module RateLimiter.

Class t (T R : Type) : Type := Build {
  When : T → R → Duration * R;
  Forget : T → R → R;
  NumRequeues : T → R → int * R
}.

End RateLimiter.

(** What a call of [Get() (item T, shutdown bool)] can do: hand out an item
    (with [shutdown = false]), report [shutdown = true] with the zero value of
    [T], or not return in the state it is called in. *)
Inductive GetResult (T : Type) : Type :=
| GetItem (item : T)
| GetShutdown
| GetBlocks.
Arguments GetItem {T} item.
Arguments GetShutdown {T}.
Arguments GetBlocks {T}.

(** [DelayingInterface[T]]: the base queue's methods and [AddAfter].  [Q] is
    the state of the queue. *)
Module DelayingInterface.

Class t (T Q : Type) : Type := Build {
  Add : T → Q → Q;
  Len : Q → int * Q;
  Get : Q → GetResult T * Q;
  Done : T → Q → Q;
  ShutDown : Q → Q;
  ShutDownWithDrain : Q → Q;
  ShuttingDown : Q → bool * Q;
  AddAfter : T → Duration → Q → Q
}.

End DelayingInterface.

(** ** [rateLimitingType] and its methods *)

Section RateLimitingQueue.

Context {T Q R : Type}.
Context `{!DelayingInterface.t T Q, !RateLimiter.t T R}.

(** The struct holds two interface values, that is two references.  The
    record holds the current state of the two objects referred to; a method
    that mutates one of them returns the record with that state replaced. *)
Record rateLimitingType : Type := mkRateLimitingType {
  DelayingInterface : Q;
  rateLimiter : R
}.

(** A call made to a collaborator, with its arguments and what it returned. *)
Inductive call : Type :=
| CallWhen (item : T) (d : Duration)
| CallForget (item : T)
| CallNumRequeues (item : T) (n : int)
| CallAdd (item : T)
| CallLen (n : int)
| CallGet (r : GetResult T)
| CallDone (item : T)
| CallShutDown
| CallShutDownWithDrain
| CallShuttingDown (b : bool)
| CallAddAfter (item : T) (d : Duration).

(** A method body: from the state of the two objects to a result, their
    state afterwards, and the calls made, in order. *)
Definition M (A : Type) : Type :=
  rateLimitingType → A * rateLimitingType * list call.

Definition ret {A} (a : A) : M A := λ q, (a, q, []).

Definition bind {A B} (m : M A) (k : A → M B) : M B :=
  λ q, let '(a, q1, c1) := m q in
       let '(b, q2, c2) := k a q1 in
       (b, q2, c1 ++ c2).

(** A call of a method of [q.rateLimiter]. *)
Definition onRateLimiter {A} (f : R → A * R) (ev : A → call) : M A :=
  λ q, let '(a, r) := f (rateLimiter q) in
       (a, {| DelayingInterface := DelayingInterface q; rateLimiter := r |}, [ev a]).

(** A call of a method of [q.DelayingInterface]. *)
Definition onDelaying {A} (f : Q → A * Q) (ev : A → call) : M A :=
  λ q, let '(a, d) := f (DelayingInterface q) in
       (a, {| DelayingInterface := d; rateLimiter := rateLimiter q |}, [ev a]).

Definition result {A} (x : A * rateLimitingType * list call) : A := x.1.1.
Definition after {A} (x : A * rateLimitingType * list call) : rateLimitingType := x.1.2.
Definition calls {A} (x : A * rateLimitingType * list call) : list call := x.2.

End RateLimitingQueue.

Arguments rateLimitingType : clear implicits.
Arguments call : clear implicits.
Arguments M : clear implicits.

#[export] Instance M_ret {T Q R} : MRet (M T Q R) := @ret T Q R.
#[export] Instance M_bind {T Q R} : MBind (M T Q R) :=
  λ A B k m, bind m k.

Section Methods.

Context {T Q R : Type}.
Context `{!DelayingInterface.t T Q, !RateLimiter.t T R}.

Local Abbreviation M := (M T Q R).

(** *** Methods promoted from the embedded [DelayingInterface[T]]

    The struct declares none of them: Go resolves [q.Add(x)] to
    [q.DelayingInterface.Add(x)], and so for the others. *)

Definition Add (item : T) : M unit :=
  onDelaying (λ d, (tt, DelayingInterface.Add item d)) (λ _, CallAdd item).

Definition Len : M int :=
  onDelaying DelayingInterface.Len CallLen.

Definition Get : M (GetResult T) :=
  onDelaying DelayingInterface.Get CallGet.

Definition Done (item : T) : M unit :=
  onDelaying (λ d, (tt, DelayingInterface.Done item d)) (λ _, CallDone item).

Definition ShutDown : M unit :=
  onDelaying (λ d, (tt, DelayingInterface.ShutDown d)) (λ _, CallShutDown).

Definition ShutDownWithDrain : M unit :=
  onDelaying (λ d, (tt, DelayingInterface.ShutDownWithDrain d))
             (λ _, CallShutDownWithDrain).

Definition ShuttingDown : M bool :=
  onDelaying DelayingInterface.ShuttingDown CallShuttingDown.

Definition AddAfter (item : T) (d : Duration) : M unit :=
  onDelaying (λ s, (tt, DelayingInterface.AddAfter item d s))
             (λ _, CallAddAfter item d).

(** *** The three methods the struct declares *)

(** [q.DelayingInterface.AddAfter(item, q.rateLimiter.When(item))] *)
Definition AddRateLimited (item : T) : M unit :=
  d ← onRateLimiter (RateLimiter.When item) (CallWhen item);
  AddAfter item d.

(** [return q.rateLimiter.NumRequeues(item)] *)
Definition NumRequeues (item : T) : M int :=
  onRateLimiter (RateLimiter.NumRequeues item) (CallNumRequeues item).

(** [q.rateLimiter.Forget(item)] *)
Definition Forget (item : T) : M unit :=
  onRateLimiter (λ r, (tt, RateLimiter.Forget item r)) (λ _, CallForget item).

End Methods.

(** ** Every method of the queue, as data

    [inherited] lists the methods of [DelayingInterface[T]]; [method] adds the
    three of [rateLimitingType].  [value] is what a method returns. *)

Inductive inherited (T : Type) : Type :=
| IAdd (item : T)
| ILen
| IGet
| IDone (item : T)
| IShutDown
| IShutDownWithDrain
| IShuttingDown
| IAddAfter (item : T) (d : Duration).
Arguments IAdd {T} item.
Arguments ILen {T}.
Arguments IGet {T}.
Arguments IDone {T} item.
Arguments IShutDown {T}.
Arguments IShutDownWithDrain {T}.
Arguments IShuttingDown {T}.
Arguments IAddAfter {T} item d.

Inductive method (T : Type) : Type :=
| Inherited (m : inherited T)
| MAddRateLimited (item : T)
| MForget (item : T)
| MNumRequeues (item : T).
Arguments Inherited {T} m.
Arguments MAddRateLimited {T} item.
Arguments MForget {T} item.
Arguments MNumRequeues {T} item.

Inductive value (T : Type) : Type :=
| VNone
| VInt (n : int)
| VGet (r : GetResult T)
| VBool (b : bool).
Arguments VNone {T}.
Arguments VInt {T} n.
Arguments VGet {T} r.
Arguments VBool {T} b.

Section Invoke.

Context {T Q R : Type}.
Context `{!DelayingInterface.t T Q, !RateLimiter.t T R}.

(** The method called on the delaying queue itself. *)
Definition direct (m : inherited T) (s : Q) : value T * Q :=
  match m with
  | IAdd item => (VNone, DelayingInterface.Add item s)
  | ILen => prod_map VInt id (DelayingInterface.Len s)
  | IGet => prod_map VGet id (DelayingInterface.Get s)
  | IDone item => (VNone, DelayingInterface.Done item s)
  | IShutDown => (VNone, DelayingInterface.ShutDown s)
  | IShutDownWithDrain => (VNone, DelayingInterface.ShutDownWithDrain s)
  | IShuttingDown => prod_map VBool id (DelayingInterface.ShuttingDown s)
  | IAddAfter item d => (VNone, DelayingInterface.AddAfter item d s)
  end.

(** The same method called on the rate-limiting queue. *)
Definition promoted (m : inherited T) : M T Q R (value T) :=
  match m with
  | IAdd item => _ ← Add item; mret VNone
  | ILen => n ← Len; mret (VInt n)
  | IGet => r ← Get; mret (VGet r)
  | IDone item => _ ← Done item; mret VNone
  | IShutDown => _ ← ShutDown; mret VNone
  | IShutDownWithDrain => _ ← ShutDownWithDrain; mret VNone
  | IShuttingDown => b ← ShuttingDown; mret (VBool b)
  | IAddAfter item d => _ ← AddAfter item d; mret VNone
  end.

Definition invoke (m : method T) : M T Q R (value T) :=
  match m with
  | Inherited i => promoted i
  | MAddRateLimited item => _ ← AddRateLimited item; mret VNone
  | MForget item => _ ← Forget item; mret VNone
  | MNumRequeues item => n ← NumRequeues item; mret (VInt n)
  end.

(** A history of calls, oldest first, and the state it leaves. *)
Definition runs (h : list (method T)) (q : rateLimitingType Q R) : rateLimitingType Q R :=
  foldl (λ s m, after (invoke m s)) q h.

(** Whether a recorded call went to the rate limiter. *)
Definition toRateLimiter (c : call T) : bool :=
  match c with
  | CallWhen _ _ | CallForget _ | CallNumRequeues _ _ => true
  | _ => false
  end.

(** What the queue reports for [item] in state [q]. *)
Definition reported (item : T) (q : rateLimitingType Q R) : int :=
  result (NumRequeues item q).

Context `{!EqDecision T}.

Definition isAddRateLimited (x : T) (m : method T) : bool :=
  match m with
  | MAddRateLimited y => bool_decide (x = y)
  | _ => false
  end.

(** How many times [AddRateLimited(x)] occurs in a history. *)
Definition requeues (x : T) (h : list (method T)) : nat :=
  length (filter (λ m, isAddRateLimited x m = true) h).

End Invoke.

(** ** What a strategy may promise

    The queue is built on any [RateLimiter[T]].  The properties below are not
    the queue's: they are what a given strategy does, and the facts proved of
    the queue that depend on one name it. *)

Section Contracts.

Context {T R : Type} `{!RateLimiter.t T R}.

(** [NumRequeues] of the strategy is a read. *)
Class ReadOnlyNumRequeues : Prop :=
  numRequeues_read : ∀ (r : R) (x : T), (RateLimiter.NumRequeues x r).2 = r.

(** After [Forget(x)] the strategy reports [baseline] for [x]. *)
Class ResetsOnForget (baseline : int) : Prop :=
  forget_resets : ∀ (r : R) (x : T),
    (RateLimiter.NumRequeues x (RateLimiter.Forget x r)).1 = baseline.

(** The strategy keeps one count per item: [When(x)] adds one to the count of
    [x] and to no other, [Forget(y)] leaves the count of every other item as
    it is, and so does reading a count. *)
Class CountsPerWhen : Prop := {
  when_counts : ∀ (r : R) (x : T),
    (RateLimiter.NumRequeues x (RateLimiter.When x r).2).1
    = ((RateLimiter.NumRequeues x r).1 + 1)%Z;
  when_other : ∀ (r : R) (x y : T), x ≠ y →
    (RateLimiter.NumRequeues x (RateLimiter.When y r).2).1
    = (RateLimiter.NumRequeues x r).1;
  forget_other : ∀ (r : R) (x y : T), x ≠ y →
    (RateLimiter.NumRequeues x (RateLimiter.Forget y r)).1
    = (RateLimiter.NumRequeues x r).1;
  numRequeues_other : ∀ (r : R) (x y : T),
    (RateLimiter.NumRequeues x (RateLimiter.NumRequeues y r).2).1
    = (RateLimiter.NumRequeues x r).1
}.

End Contracts.

Arguments ReadOnlyNumRequeues T R {_}.
Arguments ResetsOnForget T R {_} baseline.
Arguments CountsPerWhen T R {_}.

(** ** Construction *)

(** [DelayingQueueConfig[T]] is declared with the delaying queue, outside this
    file.  The record has the three fields that the composite literal in
    [NewRateLimitingQueueWithConfig] sets; a literal leaves every field it
    does not name at its zero value.  An interface value that may be [nil] is
    an [option]. *)
Module DelayingQueueConfig.

Record t (MP Clk : Type) : Type := Build {
  Name : string;
  MetricsProvider : option MP;
  Clock : option Clk
}.
Arguments Build {_ _} _ _ _.
Arguments Name {_ _} _.
Arguments MetricsProvider {_ _} _.
Arguments Clock {_ _} _.

End DelayingQueueConfig.

(** [RateLimitingQueueConfig[T]] *)
Module RateLimitingQueueConfig.

Record t (MP Clk Q : Type) : Type := Build {
  Name : string;
  MetricsProvider : option MP;
  Clock : option Clk;
  DelayingQueue : option Q
}.
Arguments Build {_ _ _} _ _ _ _.
Arguments Name {_ _ _} _.
Arguments MetricsProvider {_ _ _} _.
Arguments Clock {_ _ _} _.
Arguments DelayingQueue {_ _ _} _.

(** [RateLimitingQueueConfig[T]{}] *)
Definition zero {MP Clk Q : Type} : t MP Clk Q :=
  {| Name := EmptyString; MetricsProvider := None; Clock := None;
     DelayingQueue := None |}.

(** A composite literal that names one field is the zero value with that
    field set. *)
Definition setName {MP Clk Q : Type}
    (name : string) (c : t MP Clk Q) : t MP Clk Q :=
  {| Name := name; MetricsProvider := MetricsProvider c; Clock := Clock c;
     DelayingQueue := DelayingQueue c |}.

Definition setDelayingQueue {MP Clk Q : Type}
    (di : option Q) (c : t MP Clk Q) : t MP Clk Q :=
  {| Name := Name c; MetricsProvider := MetricsProvider c; Clock := Clock c;
     DelayingQueue := di |}.

End RateLimitingQueueConfig.

Section Constructors.

Context {Q R : Type}.

(** [MetricsProvider] and [clock.WithTicker] are interfaces declared
    elsewhere, [clock.RealClock{}] is the wall clock of [k8s.io/utils/clock],
    and [NewDelayingQueueWithConfig] is the constructor of the delaying
    queue: the state of the queue it builds from a configuration. *)
Context {MetricsProvider Clock : Type}.
Context (RealClock : Clock).
Context (NewDelayingQueueWithConfig :
           DelayingQueueConfig.t MetricsProvider Clock → Q).

Local Abbreviation Config := (RateLimitingQueueConfig.t MetricsProvider Clock Q).

(** The two [if] statements assign to fields of the local copy of [config];
    the [let]s are those two fields after each assignment.  [rateLimiter] is
    stored as it is passed, without a look at it: the constructors are
    defined for every type [R], and at [option R] they are the constructors
    for a rate limiter that may be [nil]. *)
Definition NewRateLimitingQueueWithConfig
    (rateLimiter : R) (config : Config) : rateLimitingType Q R :=
  (* if config.Clock == nil { config.Clock = clock.RealClock{} } *)
  let clock :=
    match RateLimitingQueueConfig.Clock config with
    | None => RealClock
    | Some c => c
    end in
  (* if config.DelayingQueue == nil { config.DelayingQueue = ... } *)
  let delayingQueue :=
    match RateLimitingQueueConfig.DelayingQueue config with
    | None =>
        NewDelayingQueueWithConfig
          {| DelayingQueueConfig.Name := RateLimitingQueueConfig.Name config;
             DelayingQueueConfig.MetricsProvider :=
               RateLimitingQueueConfig.MetricsProvider config;
             DelayingQueueConfig.Clock := Some clock |}
    | Some di => di
    end in
  {| DelayingInterface := delayingQueue; rateLimiter := rateLimiter |}.

Definition NewRateLimitingQueue (rateLimiter : R) : rateLimitingType Q R :=
  NewRateLimitingQueueWithConfig rateLimiter RateLimitingQueueConfig.zero.

(** [RateLimitingQueueConfig[T]{Name: name}] *)
Definition NewNamedRateLimitingQueue
    (rateLimiter : R) (name : string) : rateLimitingType Q R :=
  NewRateLimitingQueueWithConfig rateLimiter
    (RateLimitingQueueConfig.setName name RateLimitingQueueConfig.zero).

(** [RateLimitingQueueConfig[T]{DelayingQueue: di}].  [di] is an interface
    value like the field it is stored in: it may be [nil], and the field is
    then [nil] as in the empty configuration. *)
Definition NewRateLimitingQueueWithDelayingInterface
    (di : option Q) (rateLimiter : R) : rateLimitingType Q R :=
  NewRateLimitingQueueWithConfig rateLimiter
    (RateLimitingQueueConfig.setDelayingQueue di RateLimitingQueueConfig.zero).

End Constructors.

(** ** The collaborators, as they are described

    Neither interface is implemented in this file.  What is proved of the
    adapter alone holds for every implementation; what depends on how a
    delaying queue treats time and shutdown, or on how a strategy counts, is
    stated over the two models below. *)

Section DelayingQueue.

Context {T : Type} `{!EqDecision T}.

(** Modelled from the spec: the delaying queue, whose implementation
    ([AddAfter], [Get], [Done], the shutdown flag, the clock it waits on) is
    not in this file.  It is "a set-backed queue of unique items" with
    "immediate enqueue, scheduled future enqueue, blocking dequeue, and
    duplicate suppression", read against an injected clock:
    - [now]: the reading of the clock, in nanoseconds;
    - [queue]: the items visible to consumers, oldest first;
    - [waiting]: the items scheduled by [AddAfter], each with the reading at
      which it becomes visible;
    - [processing]: the items handed out by [Get] and not yet [Done];
    - [deferred]: the items added again while a consumer holds them;
    - [shuttingDown]: set by [ShutDown] and [ShutDownWithDrain]. *)
Record delayingType : Type := mkDelayingType {
  now : Z;
  queue : list T;
  waiting : list (T * Z);
  processing : list T;
  deferred : list T;
  shuttingDown : bool
}.

(** Modelled from the spec: [Add(item)], immediate enqueue.  A queue that is
    shutting down absorbs the add, and an item already in the visible set is
    not duplicated.  [Get] is to "unblock exactly once per logical enqueue
    (after dedup)" and the queue tracks what is being processed until [Done]
    is called: an item added while a consumer holds it is not handed out a
    second time at once, it is kept back until [Done]. *)
Definition dqAdd (item : T) (s : delayingType) : delayingType :=
  if shuttingDown s then s
  else if decide (item ∈ queue s) then s
  else if decide (item ∈ processing s) then
    if decide (item ∈ deferred s) then s
    else {| now := now s; queue := queue s; waiting := waiting s;
            processing := processing s; deferred := deferred s ++ [item];
            shuttingDown := shuttingDown s |}
  else {| now := now s; queue := queue s ++ [item]; waiting := waiting s;
          processing := processing s; deferred := deferred s;
          shuttingDown := shuttingDown s |}.

(** Modelled from the spec: duplicate pending entries collapse and "the
    earlier scheduled time wins". *)
Fixpoint schedule (item : T) (readyAt : Z) (w : list (T * Z)) : list (T * Z) :=
  match w with
  | [] => [(item, readyAt)]
  | (y, t) :: w' =>
      if decide (y = item) then (y, Z.min t readyAt) :: w'
      else (y, t) :: schedule item readyAt w'
  end.

(** Modelled from the spec: [AddAfter(item, delay)] "schedules visibility
    after [delay]; [delay ≤ 0] behaves like [Add]"; after shutdown "the add is
    a no-op (silently dropped)". *)
Definition dqAddAfter (item : T) (d : Duration) (s : delayingType) : delayingType :=
  if shuttingDown s then s
  else if decide (d ≤ 0)%Z then dqAdd item s
  else {| now := now s; queue := queue s;
          waiting := schedule item (now s + d) (waiting s);
          processing := processing s; deferred := deferred s;
          shuttingDown := shuttingDown s |}.

(** Modelled from the spec: [Get()] is a blocking dequeue; it "blocks when
    empty unless shut down".  The item handed out joins the processing set. *)
Definition dqGet (s : delayingType) : GetResult T * delayingType :=
  match queue s with
  | item :: rest =>
      (GetItem item,
       {| now := now s; queue := rest; waiting := waiting s;
          processing := item :: processing s; deferred := deferred s;
          shuttingDown := shuttingDown s |})
  | [] => (if shuttingDown s then GetShutdown else GetBlocks, s)
  end.

(** Modelled from the spec: [Done(item)] marks processing finished.  An item
    that was added again in the meantime becomes visible now. *)
Definition dqDone (item : T) (s : delayingType) : delayingType :=
  {| now := now s;
     queue := if decide (item ∈ deferred s) then queue s ++ [item] else queue s;
     waiting := waiting s;
     processing := filter (λ y, y ≠ item) (processing s);
     deferred := filter (λ y, y ≠ item) (deferred s);
     shuttingDown := shuttingDown s |}.

Definition dqLen (s : delayingType) : int * delayingType :=
  (Z.of_nat (length (queue s)), s).

(** Modelled from the spec: [ShutDown()] and [ShutDownWithDrain()] set the
    flag (the wait of the second for the processing set to empty is a matter
    of scheduling and is not part of the state). *)
Definition dqShutDown (s : delayingType) : delayingType :=
  {| now := now s; queue := queue s; waiting := waiting s;
     processing := processing s; deferred := deferred s;
     shuttingDown := true |}.

Definition dqShuttingDown (s : delayingType) : bool * delayingType :=
  (shuttingDown s, s).

#[export] Instance delayingType_DelayingInterface : DelayingInterface.t T delayingType := {|
  DelayingInterface.Add := dqAdd;
  DelayingInterface.Len := dqLen;
  DelayingInterface.Get := dqGet;
  DelayingInterface.Done := dqDone;
  DelayingInterface.ShutDown := dqShutDown;
  DelayingInterface.ShutDownWithDrain := dqShutDown;
  DelayingInterface.ShuttingDown := dqShuttingDown;
  DelayingInterface.AddAfter := dqAddAfter
|}.

(** Modelled from the spec: the injected deterministic clock advances by
    [dt]; every scheduled item whose time has come is handed to [Add], in the
    order of scheduling. *)
Definition elapse (dt : Duration) (s : delayingType) : delayingType :=
  let t := (now s + dt)%Z in
  foldl (λ s' e, dqAdd e.1 s')
        {| now := t; queue := queue s;
           waiting := filter (λ e, ¬ (e.2 ≤ t)%Z) (waiting s);
           processing := processing s; deferred := deferred s;
           shuttingDown := shuttingDown s |}
        (filter (λ e, (e.2 ≤ t)%Z) (waiting s)).

Definition elapses (dts : list Duration) (s : delayingType) : delayingType :=
  foldl (λ s' dt, elapse dt s') s dts.

Definition total (dts : list Duration) : Duration := foldr Z.add 0%Z dts.

(** What [n] calls of [Get] in a row return. *)
Fixpoint gets (n : nat) (s : delayingType) : list (GetResult T) :=
  match n with
  | O => []
  | S n' => (dqGet s).1 :: gets n' (dqGet s).2
  end.

(** [x] is observable via [Get]: consumers calling [Get] are handed [x]. *)
Definition observable (x : T) (s : delayingType) : Prop :=
  ∃ n, GetItem x ∈ gets n s.

End DelayingQueue.

Arguments delayingType : clear implicits.

Section DelayHonored.

Context {T R : Type} `{!EqDecision T, !RateLimiter.t T R}.

(** "After [AddRateLimited(x)], [x] is not observable via [Get()] before the
    duration returned by [When(x)] elapses, and becomes observable at or
    after that point", with nothing but the clock moving in between. *)
Definition delayHonored (q : rateLimitingType (delayingType T) R) (x : T) : Prop :=
  let d := (RateLimiter.When x (rateLimiter q)).1 in
  let s := DelayingInterface (after (AddRateLimited x q)) in
  ∀ dts : list Duration, Forall (λ dt, 0 ≤ dt)%Z dts →
    ((total dts < d)%Z → ¬ observable x (elapses dts s)) ∧
    ((d ≤ total dts)%Z → observable x (elapses dts s)).

(** [x] is not visible and is not scheduled to become visible before [r]
    more nanoseconds have gone by. *)
Definition heldBack (x : T) (r : Duration) (s : delayingType T) : Prop :=
  (x ∉ queue s) ∧ (∀ t : Z, (x, t) ∈ waiting s → (now s + r ≤ t)%Z).

(** [x] is scheduled to become visible within [r] nanoseconds, on a queue
    that takes adds, and no consumer holds it. *)
Definition dueWithin (x : T) (r : Duration) (s : delayingType T) : Prop :=
  shuttingDown s = false ∧ (x ∉ processing s) ∧
  (∃ t : Z, (x, t) ∈ waiting s ∧ (t ≤ now s + r)%Z).

End DelayHonored.

Section CountingRateLimiter.

Context {T : Type} `{!EqDecision T, !Countable T}.

(** Modelled from the spec: a "counting rate limiter ([When] returns
    [count * 1s], [NumRequeues] returns [count])", a strategy of the kind the
    spec calls standard, which "internally maintains a mapping from WorkItem
    to retry count" and drops the entry of an item on [Forget].  The
    strategies themselves are not in this file; the count and the delay are
    the integers of the description, with no bound on either. *)
Record countingRateLimiter : Type := mkCounting {
  failures : gmap T Z
}.

Definition second : Duration := 1000000000%Z.

Definition count (item : T) (r : countingRateLimiter) : Z :=
  default 0%Z (failures r !! item).

Definition countingWhen (item : T) (r : countingRateLimiter)
  : Duration * countingRateLimiter :=
  let n := (count item r + 1)%Z in
  ((n * second)%Z, {| failures := <[item := n]> (failures r) |}).

Definition countingForget (item : T) (r : countingRateLimiter) : countingRateLimiter :=
  {| failures := delete item (failures r) |}.

Definition countingNumRequeues (item : T) (r : countingRateLimiter)
  : int * countingRateLimiter :=
  (count item r, r).

#[export] Instance countingRateLimiter_RateLimiter : RateLimiter.t T countingRateLimiter := {|
  RateLimiter.When := countingWhen;
  RateLimiter.Forget := countingForget;
  RateLimiter.NumRequeues := countingNumRequeues
|}.

End CountingRateLimiter.

Arguments countingRateLimiter T {_ _}.

(** ** Histories, seen from each collaborator

    What each of the two objects goes through while a history of calls runs
    on the queue, and the calls the history makes. *)

Section Histories.

Context {T Q R : Type}.
Context `{!DelayingInterface.t T Q, !RateLimiter.t T R}.

(** The state of the rate limiter after one method of the queue: the three
    methods of lines 109 to 119 call [When], [Forget] and [NumRequeues] on
    it, the inherited ones do not have it in hand. *)
Definition limiterStep (m : method T) (r : R) : R :=
  match m with
  | Inherited _ => r
  | MAddRateLimited item => (RateLimiter.When item r).2
  | MForget item => RateLimiter.Forget item r
  | MNumRequeues item => (RateLimiter.NumRequeues item r).2
  end.

(** The state of the delaying queue after one method of the queue, the rate
    limiter being in state [r] when it is called. *)
Definition queueStep (m : method T) (r : R) (s : Q) : Q :=
  match m with
  | Inherited i => (direct i s).2
  | MAddRateLimited item =>
      DelayingInterface.AddAfter item (RateLimiter.When item r).1 s
  | MForget _ | MNumRequeues _ => s
  end.

(** The calls a plain client of the delaying queue would make to put it
    through the same history: every inherited call as it is, an [AddAfter]
    with the delay of the rate limiter for every [AddRateLimited], nothing
    for [Forget] and [NumRequeues]. *)
Fixpoint lower (h : list (method T)) (r : R) : list (inherited T) :=
  match h with
  | [] => []
  | m :: h' =>
      match m with
      | Inherited i => [i]
      | MAddRateLimited item => [IAddAfter item (RateLimiter.When item r).1]
      | MForget _ | MNumRequeues _ => []
      end ++ lower h' (limiterStep m r)
  end.

(** The calls on the delaying queue itself, one after the other. *)
Definition directs (l : list (inherited T)) (s : Q) : Q :=
  foldl (λ s' i, (direct i s').2) s l.

(** Every call made to a collaborator while the history runs, in order. *)
Fixpoint trace (h : list (method T)) (q : rateLimitingType Q R) : list (call T) :=
  match h with
  | [] => []
  | m :: h' => calls (invoke m q) ++ trace h' (after (invoke m q))
  end.

Definition isInherited (m : method T) : bool :=
  match m with Inherited _ => true | _ => false end.

Definition isRequeue (m : method T) : bool :=
  match m with MAddRateLimited _ => true | _ => false end.

Definition isNumRequeues (m : method T) : bool :=
  match m with MNumRequeues _ => true | _ => false end.

(** [Forget] and [NumRequeues]: the two methods that are about the count. *)
Definition isBookkeeping (m : method T) : bool :=
  match m with MForget _ | MNumRequeues _ => true | _ => false end.

Context `{!EqDecision T}.

(** Whether [m] is [AddRateLimited(x)] or [Forget(x)]. *)
Definition mentions (x : T) (m : method T) : bool :=
  match m with
  | MAddRateLimited y | MForget y => bool_decide (x = y)
  | _ => false
  end.

(** Whether every [When] in a sequence of calls is followed at once by the
    [AddAfter] of the same item with the duration that [When] returned. *)
Fixpoint paired (tr : list (call T)) : bool :=
  match tr with
  | [] => true
  | CallWhen x d :: rest =>
      match rest with
      | CallAddAfter y d' :: rest' =>
          bool_decide (x = y) && bool_decide (d = d') && paired rest'
      | _ => false
      end
  | _ :: rest => paired rest
  end.

End Histories.

(** ** Calls that may not return

    The type classes above are collaborators every call of which returns,
    and [rateLimitingType Q R] holds a rate limiter that is there.  A Go call
    may also panic or never return, and the [rateLimiter] field holds an
    interface value, which may be [nil]: the constructors store what they are
    passed.  The methods of lines 109 to 119 are given here once more for
    that setting, over [rateLimitingType Q (option R)]. *)

Inductive outcome (A : Type) : Type :=
| Returns (a : A)
| Panics
| Blocks.
Arguments Returns {A} a.
Arguments Panics {A}.
Arguments Blocks {A}.

#[export] Instance outcome_ret : MRet outcome := @Returns.
#[export] Instance outcome_bind : MBind outcome :=
  λ A B k m,
    match m with
    | Returns a => k a
    | Panics => Panics
    | Blocks => Blocks
    end.

(** [RateLimiter[T]], a call of which may fail to return. *)
Module FallibleRateLimiter.

Class t (T R : Type) : Type := Build {
  When : T → R → outcome (Duration * R);
  Forget : T → R → outcome R;
  NumRequeues : T → R → outcome (int * R)
}.

End FallibleRateLimiter.

(** Of [DelayingInterface[T]], the one method that the methods of lines 109
    to 119 call. *)
Module FallibleDelaying.

Class t (T Q : Type) : Type := Build {
  AddAfter : T → Duration → Q → outcome Q
}.

End FallibleDelaying.

(** Collaborators whose calls return are collaborators of this kind. *)
#[export] Instance returning_RateLimiter {T R : Type} `{!RateLimiter.t T R} :
  FallibleRateLimiter.t T R := {|
  FallibleRateLimiter.When item r := Returns (RateLimiter.When item r);
  FallibleRateLimiter.Forget item r := Returns (RateLimiter.Forget item r);
  FallibleRateLimiter.NumRequeues item r := Returns (RateLimiter.NumRequeues item r)
|}.

#[export] Instance returning_Delaying {T Q : Type} `{!DelayingInterface.t T Q} :
  FallibleDelaying.t T Q := {|
  FallibleDelaying.AddAfter item d s := Returns (DelayingInterface.AddAfter item d s)
|}.

Module Fallible.

Section Methods.

Context {T Q R : Type}.
Context `{!FallibleDelaying.t T Q, !FallibleRateLimiter.t T R}.

(** [q.DelayingInterface.AddAfter(item, q.rateLimiter.When(item))]: the
    argument is evaluated before [AddAfter] is called, and a method call on
    a [nil] interface value panics. *)
Definition AddRateLimited (item : T) (q : rateLimitingType Q (option R))
  : outcome (rateLimitingType Q (option R) * list (call T)) :=
  match rateLimiter q with
  | None => Panics
  | Some r =>
      w ← FallibleRateLimiter.When item r;
      s ← FallibleDelaying.AddAfter item w.1 (DelayingInterface q);
      mret ({| DelayingInterface := s; rateLimiter := Some w.2 |},
            [CallWhen item w.1; CallAddAfter item w.1])
  end.

(** [return q.rateLimiter.NumRequeues(item)] *)
Definition NumRequeues (item : T) (q : rateLimitingType Q (option R))
  : outcome (int * rateLimitingType Q (option R) * list (call T)) :=
  match rateLimiter q with
  | None => Panics
  | Some r =>
      n ← FallibleRateLimiter.NumRequeues item r;
      mret (n.1,
            {| DelayingInterface := DelayingInterface q; rateLimiter := Some n.2 |},
            [CallNumRequeues item n.1])
  end.

(** [q.rateLimiter.Forget(item)] *)
Definition Forget (item : T) (q : rateLimitingType Q (option R))
  : outcome (rateLimitingType Q (option R) * list (call T)) :=
  match rateLimiter q with
  | None => Panics
  | Some r =>
      r' ← FallibleRateLimiter.Forget item r;
      mret ({| DelayingInterface := DelayingInterface q; rateLimiter := Some r' |},
            [CallForget item])
  end.

End Methods.

End Fallible.

(** A queue instantiated at an interface type carries items whose dynamic
    value is a string, say, or a slice; both satisfy [comparable] and only
    the first can be a key of a map. *)
Inductive dynItem : Type :=
| StringItem (s : string)
| SliceItem (l : list Z).

#[export] Instance dynItem_eq_dec : EqDecision dynItem.
Proof. solve_decision. Defined.

Definition hashKey (item : dynItem) : option string :=
  match item with
  | StringItem s => Some s
  | SliceItem _ => None
  end.

(** Modelled from the spec: the counting rate limiter once more, its
    "mapping from WorkItem to retry count" being a Go map: an access with a
    key that cannot be hashed panics. *)
#[export] Instance dynCounting :
  FallibleRateLimiter.t dynItem (countingRateLimiter string) := {|
  FallibleRateLimiter.When item r :=
    match hashKey item with
    | Some k => Returns (countingWhen k r)
    | None => Panics
    end;
  FallibleRateLimiter.Forget item r :=
    match hashKey item with
    | Some k => Returns (countingForget k r)
    | None => Panics
    end;
  FallibleRateLimiter.NumRequeues item r :=
    match hashKey item with
    | Some k => Returns (countingNumRequeues k r)
    | None => Panics
    end
|}.

(** ** States to try the queue on *)

(** A queue of strings over the two models: nothing queued, nothing
    scheduled, nothing counted, the clock at 0. *)
Definition fresh : rateLimitingType (delayingType string) (countingRateLimiter string) :=
  {| DelayingInterface :=
       {| now := 0; queue := []; waiting := []; processing := [];
          deferred := []; shuttingDown := false |};
     rateLimiter := {| failures := ∅ |} |}.

(** After [Add("x")]: ["x"] is visible. *)
Definition queued : rateLimitingType (delayingType string) (countingRateLimiter string) :=
  runs [Inherited (IAdd "x")] fresh.

(** After [ShutDown()]. *)
Definition stopped : rateLimitingType (delayingType string) (countingRateLimiter string) :=
  runs [Inherited IShutDown] fresh.

(** After three failures of ["x"] and one of ["y"]. *)
Definition retried : rateLimitingType (delayingType string) (countingRateLimiter string) :=
  runs [MAddRateLimited "x"; MAddRateLimited "y"; MAddRateLimited "x";
        Inherited IGet; MAddRateLimited "x"] fresh.

(** After [Add("x")] and [Get()]: a consumer holds ["x"]. *)
Definition held : rateLimitingType (delayingType string) (countingRateLimiter string) :=
  runs [Inherited (IAdd "x"); Inherited IGet] fresh.

(** After [AddAfter("x", 1ns)]: ["x"] is scheduled, one nanosecond ahead. *)
Definition soon : rateLimitingType (delayingType string) (countingRateLimiter string) :=
  runs [Inherited (IAddAfter "x" 1)] fresh.

(** [NewRateLimitingQueue(nil)]: the queue built around no rate limiter. *)
Definition unlimited
  : rateLimitingType (delayingType string) (option (countingRateLimiter string)) :=
  NewRateLimitingQueue tt (λ _ : DelayingQueueConfig.t unit unit,
                             DelayingInterface fresh) None.

(** The queue after [ShutDown()], its rate limiter held as an interface
    value. *)
Definition stoppedValue
  : rateLimitingType (delayingType string) (option (countingRateLimiter string)) :=
  {| DelayingInterface := DelayingInterface stopped;
     rateLimiter := Some (rateLimiter stopped) |}.

(** A queue of items of interface type over the counting rate limiter. *)
Definition dynamic
  : rateLimitingType (delayingType dynItem) (option (countingRateLimiter string)) :=
  {| DelayingInterface :=
       {| now := 0; queue := []; waiting := []; processing := [];
          deferred := []; shuttingDown := false |};
     rateLimiter := Some {| failures := ∅ |} |}.

(** * Properties *)

(** ** The adapter, over any delaying queue and any strategy *)

Section Adapter.

Context {T Q R : Type}.
Context `{!DelayingInterface.t T Q, !RateLimiter.t T R}.

Implicit Types (q : rateLimitingType Q R) (item x : T).

Lemma onRateLimiter_eq {A} (f : R → A * R) (ev : A → call T) q :
  onRateLimiter f ev q
  = ((f (rateLimiter q)).1,
     {| DelayingInterface := DelayingInterface q; rateLimiter := (f (rateLimiter q)).2 |},
     [ev (f (rateLimiter q)).1]).
Proof. unfold onRateLimiter. by destruct (f (rateLimiter q)). Qed.

Lemma onDelaying_eq {A} (f : Q → A * Q) (ev : A → call T) q :
  onDelaying f ev q
  = ((f (DelayingInterface q)).1,
     {| DelayingInterface := (f (DelayingInterface q)).2; rateLimiter := rateLimiter q |},
     [ev (f (DelayingInterface q)).1]).
Proof. unfold onDelaying. by destruct (f (DelayingInterface q)). Qed.

Lemma bind_eq {A B} (m : M T Q R A) (k : A → M T Q R B) q :
  (m ≫= k) q
  = (result (k (result (m q)) (after (m q))),
     after (k (result (m q)) (after (m q))),
     calls (m q) ++ calls (k (result (m q)) (after (m q)))).
Proof.
  unfold mbind, M_bind, bind, result, after, calls.
  destruct (m q) as [[a q1] c1]; simpl.
  by destruct (k a q1) as [[b q2] c2].
Qed.

Lemma after_AddRateLimited q item :
  after (AddRateLimited item q)
  = {| DelayingInterface :=
         DelayingInterface.AddAfter item
           (RateLimiter.When item (rateLimiter q)).1 (DelayingInterface q);
       rateLimiter := (RateLimiter.When item (rateLimiter q)).2 |}.
Proof.
  unfold AddRateLimited, AddAfter.
  rewrite bind_eq, onRateLimiter_eq. unfold result, after.
  cbn [fst snd]. by rewrite onDelaying_eq.
Qed.

Lemma after_Forget q item :
  after (Forget item q)
  = {| DelayingInterface := DelayingInterface q;
       rateLimiter := RateLimiter.Forget item (rateLimiter q) |}.
Proof. unfold Forget. by rewrite onRateLimiter_eq. Qed.

Lemma after_NumRequeues q item :
  after (NumRequeues item q)
  = {| DelayingInterface := DelayingInterface q;
       rateLimiter := (RateLimiter.NumRequeues item (rateLimiter q)).2 |}.
Proof. unfold NumRequeues. by rewrite onRateLimiter_eq. Qed.

Lemma after_promoted (m : inherited T) q :
  after (promoted m q)
  = {| DelayingInterface := (direct m (DelayingInterface q)).2;
       rateLimiter := rateLimiter q |}.
Proof.
  destruct m; unfold promoted, direct, prod_map;
    rewrite bind_eq;
    unfold Add, Len, Get, Done, ShutDown, ShutDownWithDrain, ShuttingDown, AddAfter;
    by rewrite onDelaying_eq.
Qed.

Lemma after_then_ret {A B} (m : M T Q R A) (f : A → B) q :
  after ((m ≫= λ a, mret (f a)) q) = after (m q).
Proof. by rewrite bind_eq. Qed.

(** C1. [AddRateLimited(item)] makes two calls and no more: [When(item)] on
    the rate limiter, once, and then [AddAfter(item, d)] on the delaying
    queue with the duration [d] that [When] returned.  The state afterwards
    is what those two calls leave: the limiter as [When] left it, the queue
    as [AddAfter] left it. *)
Theorem AddRateLimited_is_When_then_AddAfter q item :
  AddRateLimited item q
  = (tt,
     {| DelayingInterface :=
          DelayingInterface.AddAfter item
            (RateLimiter.When item (rateLimiter q)).1 (DelayingInterface q);
        rateLimiter := (RateLimiter.When item (rateLimiter q)).2 |},
     [CallWhen item (RateLimiter.When item (rateLimiter q)).1;
      CallAddAfter item (RateLimiter.When item (rateLimiter q)).1]).
Proof.
  unfold AddRateLimited, AddAfter.
  rewrite bind_eq, onRateLimiter_eq. unfold result, after, calls.
  cbn [fst snd]. by rewrite onDelaying_eq.
Qed.

(** C2. [NumRequeues(item)] returns exactly what the rate limiter reports for
    [item]: the only call made is that one, the delaying queue is not
    touched, and the limiter is left as its own [NumRequeues] leaves it.
    With a strategy whose [NumRequeues] is a read, no state changes at all. *)
Theorem NumRequeues_is_the_rate_limiters q item :
  result (NumRequeues item q) = (RateLimiter.NumRequeues item (rateLimiter q)).1 ∧
  calls (NumRequeues item q)
  = [CallNumRequeues item (RateLimiter.NumRequeues item (rateLimiter q)).1] ∧
  DelayingInterface (after (NumRequeues item q)) = DelayingInterface q ∧
  rateLimiter (after (NumRequeues item q))
  = (RateLimiter.NumRequeues item (rateLimiter q)).2 ∧
  (ReadOnlyNumRequeues T R → after (NumRequeues item q) = q).
Proof.
  unfold NumRequeues. rewrite onRateLimiter_eq. unfold result, after, calls. simpl.
  repeat split.
  intros Hread. rewrite Hread. by destruct q.
Qed.

(** C8. [Forget(item)] makes one call, [Forget(item)] on the rate limiter.
    The delaying queue (its pending items, its processing set, its length,
    its shutdown flag) is in the state it was in. *)
Theorem Forget_leaves_delaying_queue q item :
  DelayingInterface (after (Forget item q)) = DelayingInterface q ∧
  rateLimiter (after (Forget item q)) = RateLimiter.Forget item (rateLimiter q) ∧
  calls (Forget item q) = [CallForget item] ∧
  ∀ m : inherited T,
    direct m (DelayingInterface (after (Forget item q)))
    = direct m (DelayingInterface q).
Proof.
  unfold Forget. rewrite onRateLimiter_eq. unfold after, calls. simpl. done.
Qed.

(** C4. A method inherited from the embedded delaying queue, called on the
    rate-limiting queue, returns what the same call on the delaying queue
    returns, leaves the delaying queue in the state that call leaves it in,
    and does not reach the rate limiter: one call is made, to the queue. *)
Theorem inherited_methods_pass_through (m : inherited T) q :
  result (promoted m q) = (direct m (DelayingInterface q)).1 ∧
  after (promoted m q)
  = {| DelayingInterface := (direct m (DelayingInterface q)).2;
       rateLimiter := rateLimiter q |} ∧
  length (calls (promoted m q)) = 1 ∧
  Forall (λ c, toRateLimiter c = false) (calls (promoted m q)).
Proof.
  destruct m; unfold promoted, direct, prod_map;
    rewrite bind_eq;
    unfold Add, Len, Get, Done, ShutDown, ShutDownWithDrain, ShuttingDown, AddAfter;
    rewrite onDelaying_eq; unfold result, after, calls; simpl;
    repeat split; by repeat constructor.
Qed.

End Adapter.

(** ** Construction *)

Section ConstructorFacts.

Context {Q R MetricsProvider Clock : Type}.
Context (RealClock : Clock).
Context (NewDelayingQueueWithConfig :
           DelayingQueueConfig.t MetricsProvider Clock → Q).

(** C9. Without a clock the real clock is taken; without a delaying queue one
    is built from the name, the metrics provider and that clock (the one
    supplied, or the real one); a delaying queue that is supplied is used as
    it is, whatever the other options are.  The rate limiter is the one
    passed in. *)
Theorem NewRateLimitingQueueWithConfig_defaults
    (rl : R) (name : string) (mp : option MetricsProvider) :
  NewRateLimitingQueueWithConfig RealClock NewDelayingQueueWithConfig rl
    (RateLimitingQueueConfig.Build name mp None None)
  = {| DelayingInterface :=
         NewDelayingQueueWithConfig
           (DelayingQueueConfig.Build name mp (Some RealClock));
       rateLimiter := rl |} ∧
  (∀ c : Clock,
     NewRateLimitingQueueWithConfig RealClock NewDelayingQueueWithConfig rl
       (RateLimitingQueueConfig.Build name mp (Some c) None)
     = {| DelayingInterface :=
            NewDelayingQueueWithConfig (DelayingQueueConfig.Build name mp (Some c));
          rateLimiter := rl |}) ∧
  (∀ (clk : option Clock) (di : Q),
     NewRateLimitingQueueWithConfig RealClock NewDelayingQueueWithConfig rl
       (RateLimitingQueueConfig.Build name mp clk (Some di))
     = {| DelayingInterface := di; rateLimiter := rl |}).
Proof. repeat split. Qed.

(** C10. Each of the three short constructors is
    [NewRateLimitingQueueWithConfig] at one configuration: the empty one, the
    one with only the name set, the one with only the delaying queue set to
    the [di] passed, [nil] or not.  So the first two build their delaying
    queue with the real clock and no metrics provider; the third takes the
    queue it is given, and with a [nil] one builds what [NewRateLimitingQueue]
    builds. *)
Theorem convenience_constructors (rl : R) (name : string) (di : option Q) :
  NewRateLimitingQueue RealClock NewDelayingQueueWithConfig rl
  = NewRateLimitingQueueWithConfig RealClock NewDelayingQueueWithConfig rl
      (RateLimitingQueueConfig.Build EmptyString None None None) ∧
  NewNamedRateLimitingQueue RealClock NewDelayingQueueWithConfig rl name
  = NewRateLimitingQueueWithConfig RealClock NewDelayingQueueWithConfig rl
      (RateLimitingQueueConfig.Build name None None None) ∧
  NewRateLimitingQueueWithDelayingInterface RealClock NewDelayingQueueWithConfig di rl
  = NewRateLimitingQueueWithConfig RealClock NewDelayingQueueWithConfig rl
      (RateLimitingQueueConfig.Build EmptyString None None di) ∧
  NewRateLimitingQueue RealClock NewDelayingQueueWithConfig rl
  = {| DelayingInterface :=
         NewDelayingQueueWithConfig
           (DelayingQueueConfig.Build EmptyString None (Some RealClock));
       rateLimiter := rl |} ∧
  NewNamedRateLimitingQueue RealClock NewDelayingQueueWithConfig rl name
  = {| DelayingInterface :=
         NewDelayingQueueWithConfig
           (DelayingQueueConfig.Build name None (Some RealClock));
       rateLimiter := rl |} ∧
  NewRateLimitingQueueWithDelayingInterface RealClock NewDelayingQueueWithConfig di rl
  = match di with
    | Some d => {| DelayingInterface := d; rateLimiter := rl |}
    | None => NewRateLimitingQueue RealClock NewDelayingQueueWithConfig rl
    end.
Proof. repeat split; by destruct di. Qed.

End ConstructorFacts.

(** ** The count, under what the strategy promises *)

Section Counting.

Context {T Q R : Type}.
Context `{!DelayingInterface.t T Q, !RateLimiter.t T R}.

Implicit Types (q : rateLimitingType Q R) (x y : T) (h : list (method T)).

Lemma reported_eq x q :
  reported x q = (RateLimiter.NumRequeues x (rateLimiter q)).1.
Proof. unfold reported, NumRequeues, result. by rewrite onRateLimiter_eq. Qed.

Lemma rateLimiter_after_promoted (m : inherited T) q :
  rateLimiter (after (promoted m q)) = rateLimiter q.
Proof. by rewrite after_promoted. Qed.

Lemma rateLimiter_after_AddRateLimited x q :
  rateLimiter (after (invoke (MAddRateLimited x) q))
  = (RateLimiter.When x (rateLimiter q)).2.
Proof.
  unfold invoke. by rewrite (after_then_ret _ (λ _, VNone)), after_AddRateLimited.
Qed.

Lemma rateLimiter_after_Forget x q :
  rateLimiter (after (invoke (MForget x) q))
  = RateLimiter.Forget x (rateLimiter q).
Proof.
  unfold invoke. by rewrite (after_then_ret _ (λ _, VNone)), after_Forget.
Qed.

Lemma rateLimiter_after_NumRequeues x q :
  rateLimiter (after (invoke (MNumRequeues x) q))
  = (RateLimiter.NumRequeues x (rateLimiter q)).2.
Proof.
  unfold invoke. by rewrite (after_then_ret _ VInt), after_NumRequeues.
Qed.

Lemma runs_cons (m : method T) h q :
  runs (m :: h) q = runs h (after (invoke m q)).
Proof. done. Qed.

Lemma runs_app h1 h2 q : runs (h1 ++ h2) q = runs h2 (runs h1 q).
Proof. unfold runs. by rewrite foldl_app. Qed.

(** C3. Whatever was called before, and however high the count of [x] had
    grown, once [Forget(x)] has returned [NumRequeues(x)] returns the
    baseline of the strategy: the value the strategy reports for an item it
    has just forgotten (0 for a strategy that keeps a count per item). *)
Theorem Forget_resets_NumRequeues (baseline : int)
    (Hreset : ResetsOnForget T R baseline) h q x :
  reported x (after (Forget x (runs h q))) = baseline.
Proof.
  rewrite reported_eq, after_Forget. apply Hreset.
Qed.

Context `{!EqDecision T}.

Lemma requeues_cons x (m : method T) h :
  requeues x (m :: h)
  = ((if isAddRateLimited x m then 1 else 0) + requeues x h)%nat.
Proof.
  unfold requeues. rewrite filter_cons.
  destruct (isAddRateLimited x m); by case_decide.
Qed.

Section PerItem.

Context (Hcount : CountsPerWhen T R).

(** One call, other than [Forget(x)], moves the count of [x] by one if it is
    [AddRateLimited(x)] and not at all otherwise. *)
Lemma reported_after_invoke x (m : method T) q :
  m ≠ MForget x →
  reported x (after (invoke m q))
  = (reported x q + (if isAddRateLimited x m then 1 else 0))%Z.
Proof using Hcount.
  intros Hm. rewrite !reported_eq.
  destruct m as [i|y|y|y]; cbn [isAddRateLimited].
  - unfold invoke. rewrite rateLimiter_after_promoted. lia.
  - rewrite rateLimiter_after_AddRateLimited.
    case_bool_decide as Hxy.
    + subst y. apply when_counts.
    + rewrite when_other by done. lia.
  - rewrite rateLimiter_after_Forget.
    rewrite forget_other by congruence. lia.
  - rewrite rateLimiter_after_NumRequeues, numRequeues_other. lia.
Qed.

Lemma reported_after_runs x h q :
  MForget x ∉ h →
  reported x (runs h q) = (reported x q + Z.of_nat (requeues x h))%Z.
Proof using Hcount.
  revert q. induction h as [|m h IH]; intros q Hh.
  - unfold requeues. simpl. lia.
  - apply not_elem_of_cons in Hh as [Hm Hh].
    rewrite runs_cons, IH, reported_after_invoke, requeues_cons by done.
    destruct (isAddRateLimited x m); lia.
Qed.

Lemma requeues_replicate x (n : nat) :
  requeues x (replicate n (MAddRateLimited x)) = n.
Proof.
  induction n as [|n IH]; [done|].
  cbn [replicate]. rewrite requeues_cons, IH. cbn [isAddRateLimited].
  by rewrite bool_decide_eq_true_2.
Qed.

End PerItem.

(** C6. With a strategy that counts per item and adds one on each [When]:
    from a state in which the count of [x] is 0 (a fresh item, or one just
    forgotten), [n] calls of [AddRateLimited(x)] in a row leave
    [NumRequeues(x) = n]; more generally, after any calls whatever among
    which there is no [Forget(x)], [NumRequeues(x)] is the number of
    [AddRateLimited(x)] among them; and if the strategy also resets to 0 on
    [Forget], then after any history the count of [x] is the number of
    [AddRateLimited(x)] since the last [Forget(x)]. *)
Theorem NumRequeues_counts_AddRateLimited (Hcount : CountsPerWhen T R) x :
  (∀ q (n : nat),
     reported x q = 0%Z →
     reported x (runs (replicate n (MAddRateLimited x)) q) = Z.of_nat n) ∧
  (∀ q h,
     reported x q = 0%Z → MForget x ∉ h →
     reported x (runs h q) = Z.of_nat (requeues x h)) ∧
  (ResetsOnForget T R 0 →
   ∀ q h1 h2,
     MForget x ∉ h2 →
     reported x (runs (h1 ++ MForget x :: h2) q) = Z.of_nat (requeues x h2)).
Proof.
  split; [|split].
  - intros q n Hzero.
    rewrite reported_after_runs, requeues_replicate, Hzero; [lia|done|].
    intros Hin%elem_of_replicate. by destruct Hin.
  - intros q h Hzero Hh. rewrite reported_after_runs, Hzero by done. lia.
  - intros Hreset q h1 h2 Hh2.
    rewrite runs_app, runs_cons, reported_after_runs by done.
    rewrite reported_eq, rateLimiter_after_Forget, Hreset. lia.
Qed.

End Counting.

(** ** Time and shutdown, over the model of the delaying queue *)

Section DelayingFacts.

Context {T : Type} `{!EqDecision T}.

Implicit Types (s : delayingType T) (x y : T) (dt : Duration).
Implicit Types (dts : list Duration) (w : list (T * Z)).

Lemma shuttingDown_dqAdd y s : shuttingDown (dqAdd y s) = shuttingDown s.
Proof.
  unfold dqAdd. destruct (shuttingDown s) eqn:E; [done|].
  by repeat case_decide.
Qed.

Lemma now_dqAdd y s : now (dqAdd y s) = now s.
Proof. unfold dqAdd. destruct (shuttingDown s); [done|]. by repeat case_decide. Qed.

Lemma waiting_dqAdd y s : waiting (dqAdd y s) = waiting s.
Proof. unfold dqAdd. destruct (shuttingDown s); [done|]. by repeat case_decide. Qed.

Lemma processing_dqAdd y s : processing (dqAdd y s) = processing s.
Proof. unfold dqAdd. destruct (shuttingDown s); [done|]. by repeat case_decide. Qed.

Lemma elem_of_queue_dqAdd x y s :
  x ∈ queue (dqAdd y s)
  ↔ x ∈ queue s ∨ (shuttingDown s = false ∧ (y ∉ processing s) ∧ x = y).
Proof.
  unfold dqAdd. destruct (shuttingDown s) eqn:E; [naive_solver|].
  repeat case_decide; cbn [queue]; [naive_solver..|].
  rewrite elem_of_app, list_elem_of_singleton. naive_solver.
Qed.

Lemma shuttingDown_foldl_dqAdd w s :
  shuttingDown (foldl (λ s' e, dqAdd e.1 s') s w) = shuttingDown s.
Proof.
  revert s. induction w as [|e w IH]; intros s; [done|].
  cbn [foldl]. by rewrite IH, shuttingDown_dqAdd.
Qed.

Lemma now_foldl_dqAdd w s : now (foldl (λ s' e, dqAdd e.1 s') s w) = now s.
Proof.
  revert s. induction w as [|e w IH]; intros s; [done|].
  cbn [foldl]. by rewrite IH, now_dqAdd.
Qed.

Lemma waiting_foldl_dqAdd w s :
  waiting (foldl (λ s' e, dqAdd e.1 s') s w) = waiting s.
Proof.
  revert s. induction w as [|e w IH]; intros s; [done|].
  cbn [foldl]. by rewrite IH, waiting_dqAdd.
Qed.

Lemma processing_foldl_dqAdd w s :
  processing (foldl (λ s' e, dqAdd e.1 s') s w) = processing s.
Proof.
  revert s. induction w as [|e w IH]; intros s; [done|].
  cbn [foldl]. by rewrite IH, processing_dqAdd.
Qed.

Lemma elem_of_queue_foldl_dqAdd x w s :
  x ∈ queue (foldl (λ s' e, dqAdd e.1 s') s w)
  ↔ x ∈ queue s
    ∨ (shuttingDown s = false ∧ (x ∉ processing s) ∧ ∃ t, (x, t) ∈ w).
Proof.
  revert s. induction w as [|[y t] w IH]; intros s; cbn [foldl].
  - setoid_rewrite elem_of_nil. naive_solver.
  - rewrite IH, elem_of_queue_dqAdd, shuttingDown_dqAdd, processing_dqAdd.
    setoid_rewrite elem_of_cons. cbn [fst]. naive_solver.
Qed.

Lemma now_elapse dt s : now (elapse dt s) = (now s + dt)%Z.
Proof. unfold elapse. by rewrite now_foldl_dqAdd. Qed.

Lemma shuttingDown_elapse dt s : shuttingDown (elapse dt s) = shuttingDown s.
Proof. unfold elapse. by rewrite shuttingDown_foldl_dqAdd. Qed.

Lemma processing_elapse dt s : processing (elapse dt s) = processing s.
Proof. unfold elapse. by rewrite processing_foldl_dqAdd. Qed.

Lemma elem_of_waiting_elapse x (t : Z) dt s :
  (x, t) ∈ waiting (elapse dt s) ↔ (now s + dt < t)%Z ∧ (x, t) ∈ waiting s.
Proof.
  unfold elapse. rewrite waiting_foldl_dqAdd. cbn [waiting].
  rewrite list_elem_of_filter. cbn [snd]. intuition lia.
Qed.

Lemma elem_of_queue_elapse x dt s :
  x ∈ queue (elapse dt s)
  ↔ x ∈ queue s
    ∨ (shuttingDown s = false ∧ (x ∉ processing s)
       ∧ ∃ t, (x, t) ∈ waiting s ∧ (t ≤ now s + dt)%Z).
Proof.
  unfold elapse. rewrite elem_of_queue_foldl_dqAdd.
  cbn [queue shuttingDown processing].
  setoid_rewrite list_elem_of_filter. cbn [snd]. naive_solver.
Qed.

Lemma elapses_cons dt dts s : elapses (dt :: dts) s = elapses dts (elapse dt s).
Proof. done. Qed.

Lemma shuttingDown_elapses dts s :
  shuttingDown (elapses dts s) = shuttingDown s.
Proof.
  revert s. induction dts as [|dt dts IH]; intros s; [done|].
  by rewrite elapses_cons, IH, shuttingDown_elapse.
Qed.

(** The clock takes nothing out of the visible set. *)
Lemma queue_elapses_mono x dts s : x ∈ queue s → x ∈ queue (elapses dts s).
Proof.
  revert s. induction dts as [|dt dts IH]; intros s Hx; [done|].
  rewrite elapses_cons. apply IH, elem_of_queue_elapse. by left.
Qed.

(** After shutdown the clock puts nothing into it either. *)
Lemma queue_elapses_shutdown x dts s :
  shuttingDown s = true → x ∈ queue (elapses dts s) → x ∈ queue s.
Proof.
  revert s. induction dts as [|dt dts IH]; intros s Hs Hx; [done|].
  rewrite elapses_cons in Hx. apply IH in Hx.
  - apply elem_of_queue_elapse in Hx as [Hx|[Hs' _]]; [done|congruence].
  - by rewrite shuttingDown_elapse.
Qed.

Lemma total_nonneg dts : Forall (λ dt, 0 ≤ dt)%Z dts → (0 ≤ total dts)%Z.
Proof. induction 1; cbn [total foldr]; [done|]. unfold total in *. lia. Qed.

(** Successive calls of [Get] hand out the visible items and no other. *)
Lemma observable_queue x s : observable x s ↔ x ∈ queue s.
Proof.
  unfold observable. split.
  - intros [n Hn]. revert s Hn. induction n as [|n IH]; intros s Hn.
    + by apply elem_of_nil in Hn.
    + cbn [gets] in Hn. unfold dqGet in Hn.
      destruct (queue s) as [|y rest] eqn:Hq; cbn [fst snd] in Hn.
      * apply elem_of_cons in Hn as [Hn|Hn].
        { by destruct (shuttingDown s). }
        apply IH in Hn. by rewrite Hq in Hn.
      * apply elem_of_cons in Hn as [Hn|Hn].
        { injection Hn as ->. left. }
        apply IH in Hn. cbn [queue] in Hn. by right.
  - remember (queue s) as l eqn:Hq. revert s Hq.
    induction l as [|y rest IH]; intros s Hq Hx.
    + by apply elem_of_nil in Hx.
    + apply elem_of_cons in Hx as [->|Hx].
      * exists 1%nat. cbn [gets]. unfold dqGet. rewrite <- Hq. left.
      * destruct (IH (dqGet s).2) as [n Hn]; [|done|].
        { unfold dqGet. by rewrite <- Hq. }
        exists (S n). cbn [gets]. by right.
Qed.

(** An entry of [schedule] is an old one, or it is for the item scheduled,
    at the new time or at the earlier of an old time and the new. *)
Lemma elem_of_schedule x y (a t : Z) w :
  (y, t) ∈ schedule x a w →
  (y, t) ∈ w ∨ (y = x ∧ (t = a ∨ ∃ t0, (x, t0) ∈ w ∧ t = Z.min t0 a)).
Proof.
  induction w as [|[z u] w IH]; cbn [schedule].
  - intros Hin%list_elem_of_singleton. injection Hin as -> ->. right. by split; [|left].
  - case_decide as Hz.
    + subst z. intros [Hin|Hin]%elem_of_cons.
      * injection Hin as -> ->. right. split; [done|]. right.
        exists u. split; [left|done].
      * left. by right.
    + intros [Hin|Hin]%elem_of_cons.
      * injection Hin as -> ->. left. left.
      * destruct (IH Hin) as [Hold|(-> & [->|(t0 & Ht0 & ->)])].
        -- left. by right.
        -- right. by split; [|left].
        -- right. split; [done|]. right. exists t0. split; [by right|done].
Qed.

(** The item scheduled has an entry, at the new time or earlier. *)
Lemma schedule_has_entry x (a : Z) w :
  ∃ t, (x, t) ∈ schedule x a w ∧ (t ≤ a)%Z.
Proof.
  induction w as [|[z u] w IH]; cbn [schedule].
  - exists a. split; [left|lia].
  - case_decide as Hz.
    + subst z. exists (Z.min u a). split; [left|lia].
    + destruct IH as (t & Ht & Hle). exists t. split; [by right|done].
Qed.

End DelayingFacts.

Section DelayAndShutdown.

Context {T R : Type} `{!EqDecision T, !RateLimiter.t T R}.

Implicit Types (q : rateLimitingType (delayingType T) R) (s : delayingType T).
Implicit Types (x : T) (r d dt : Duration) (dts : list Duration).

Lemma DelayingInterface_after_AddRateLimited q x :
  DelayingInterface (after (AddRateLimited x q))
  = dqAddAfter x (RateLimiter.When x (rateLimiter q)).1 (DelayingInterface q).
Proof. by rewrite after_AddRateLimited. Qed.

Lemma dqAddAfter_shutdown x d s : shuttingDown s = true → dqAddAfter x d s = s.
Proof. intros Hs. unfold dqAddAfter. by rewrite Hs. Qed.

(** With collaborators whose calls return: on a delaying queue that has been
    shut down the add is absorbed.  The queue is left exactly as it was, and
    however far the clock moves afterwards [x] is not handed out by [Get],
    unless it was visible already before the call. *)
Lemma AddRateLimited_after_shutdown_is_absorbed q x :
  shuttingDown (DelayingInterface q) = true →
  DelayingInterface (after (AddRateLimited x q)) = DelayingInterface q ∧
  ∀ dts, x ∉ queue (DelayingInterface q) →
         ¬ observable x (elapses dts (DelayingInterface (after (AddRateLimited x q)))).
Proof.
  intros Hs. rewrite DelayingInterface_after_AddRateLimited.
  rewrite dqAddAfter_shutdown by done. split; [done|].
  intros dts Hx Hobs. apply Hx.
  apply observable_queue in Hobs. by eapply queue_elapses_shutdown.
Qed.

Lemma heldBack_dqAddAfter x d s :
  (0 < d)%Z → heldBack x d s → heldBack x d (dqAddAfter x d s).
Proof.
  intros Hd [Hq Hw]. unfold dqAddAfter.
  destruct (shuttingDown s); [done|].
  rewrite decide_False by lia. split; [done|].
  cbn [waiting now]. intros t Ht.
  apply elem_of_schedule in Ht as [Hold|(_ & [->|(t0 & Ht0 & ->)])].
  - by apply Hw.
  - lia.
  - apply Hw in Ht0. lia.
Qed.

Lemma heldBack_elapse x r dt s :
  heldBack x r s → (0 ≤ dt < r)%Z → heldBack x (r - dt) (elapse dt s).
Proof.
  intros [Hq Hw] Hdt. split.
  - intros [Hx|(_ & _ & t & Ht & Hle)]%elem_of_queue_elapse; [done|].
    apply Hw in Ht. lia.
  - intros t [_ Ht]%elem_of_waiting_elapse.
    apply Hw in Ht. rewrite now_elapse. lia.
Qed.

Lemma heldBack_elapses x dts : ∀ r s,
  Forall (λ dt, 0 ≤ dt)%Z dts → heldBack x r s → (total dts < r)%Z →
  x ∉ queue (elapses dts s).
Proof.
  induction dts as [|dt dts IH]; intros r s Hdts Hheld Hlt.
  - by destruct Hheld.
  - apply Forall_cons in Hdts as [Hdt Hdts].
    pose proof (total_nonneg dts Hdts) as Hnn.
    change (total (dt :: dts)) with (dt + total dts)%Z in Hlt.
    rewrite elapses_cons. apply (IH (r - dt)%Z); [done| |lia].
    apply heldBack_elapse; [done|lia].
Qed.

Lemma dueWithin_dqAddAfter x d s :
  shuttingDown s = false → x ∉ processing s → (0 < d)%Z →
  dueWithin x d (dqAddAfter x d s).
Proof.
  intros Hs Hp Hd. unfold dqAddAfter. rewrite Hs, decide_False by lia.
  repeat split; [done..|]. cbn [waiting now]. apply schedule_has_entry.
Qed.

Lemma dueWithin_elapse x r dt s :
  dueWithin x r s →
  x ∈ queue (elapse dt s) ∨ ((dt < r)%Z ∧ dueWithin x (r - dt) (elapse dt s)).
Proof.
  intros (Hs & Hp & t & Ht & Hle).
  destruct (decide (t ≤ now s + dt)%Z) as [Hready|Hlater].
  - left. apply elem_of_queue_elapse. right. repeat split; [done..|]. by exists t.
  - right. split; [lia|]. unfold dueWithin.
    rewrite shuttingDown_elapse, processing_elapse, now_elapse.
    repeat split; [done..|]. exists t. split; [|lia].
    apply elem_of_waiting_elapse. split; [lia|done].
Qed.

Lemma dueWithin_elapses x dts : ∀ r s,
  (0 < r)%Z → dueWithin x r s → (r ≤ total dts)%Z →
  x ∈ queue (elapses dts s).
Proof.
  induction dts as [|dt dts IH]; intros r s Hr Hdue Hle.
  - cbn [total foldr] in Hle. lia.
  - change (total (dt :: dts)) with (dt + total dts)%Z in Hle.
    rewrite elapses_cons.
    destruct (dueWithin_elapse x r dt s Hdue) as [Hin|[Hlt Hdue']].
    + by apply queue_elapses_mono.
    + apply (IH (r - dt)%Z); [lia|done|lia].
Qed.

(** C5, as the queue has it.  After [AddRateLimited(x)], with only the clock
    moving and [d] the duration that [When(x)] returned:
    - if [x] was not visible and not scheduled for an earlier time when the
      call was made, [x] is not handed out by [Get] before [d] has gone by;
    - if the delaying queue was not shutting down and no consumer held [x]
      when the call was made, [x] is handed out by [Get] once [d] has gone
      by. *)
Theorem delay_honored_as_the_delaying_queue_allows q x dts :
  let d := (RateLimiter.When x (rateLimiter q)).1 in
  let s := DelayingInterface (after (AddRateLimited x q)) in
  Forall (λ dt, 0 ≤ dt)%Z dts →
  (x ∉ queue (DelayingInterface q) →
   (∀ t : Z, (x, t) ∈ waiting (DelayingInterface q) →
             (now (DelayingInterface q) + d ≤ t)%Z) →
   (total dts < d)%Z → ¬ observable x (elapses dts s)) ∧
  (shuttingDown (DelayingInterface q) = false →
   x ∉ processing (DelayingInterface q) →
   (d ≤ total dts)%Z → observable x (elapses dts s)).
Proof.
  cbn zeta. rewrite DelayingInterface_after_AddRateLimited.
  set (d := (RateLimiter.When x (rateLimiter q)).1).
  intros Hdts. pose proof (total_nonneg dts Hdts) as Hnn.
  setoid_rewrite observable_queue. split.
  - intros Hq Hw Hlt.
    apply (heldBack_elapses x dts d); [done| |done].
    apply heldBack_dqAddAfter; [lia|by split].
  - intros Hs Hp Hle.
    destruct (decide (0 < d)%Z) as [Hd|Hd].
    + apply (dueWithin_elapses x dts d); [done| |done].
      by apply dueWithin_dqAddAfter.
    + apply queue_elapses_mono. unfold dqAddAfter. rewrite Hs.
      rewrite decide_True by lia. apply elem_of_queue_dqAdd. by right.
Qed.

End DelayAndShutdown.

Section FallibleFacts.

Context {T Q R : Type}.
Context `{!EqDecision T, !FallibleDelaying.t T Q, !FallibleRateLimiter.t T R}.

Implicit Types (x : T) (d : Duration) (dts : list Duration).

Lemma AddRateLimited_returns_iff (q : rateLimitingType Q (option R)) x
    (v : rateLimitingType Q (option R) * list (call T)) :
  Fallible.AddRateLimited x q = Returns v
  ↔ ∃ (r r' : R) d (s : Q),
      rateLimiter q = Some r ∧
      FallibleRateLimiter.When x r = Returns (d, r') ∧
      FallibleDelaying.AddAfter x d (DelayingInterface q) = Returns s ∧
      v = ({| DelayingInterface := s; rateLimiter := Some r' |},
           [CallWhen x d; CallAddAfter x d]).
Proof.
  unfold Fallible.AddRateLimited, mbind, outcome_bind, mret, outcome_ret.
  split.
  - destruct (rateLimiter q) as [r|] eqn:Hrl; [|discriminate].
    destruct (FallibleRateLimiter.When x r) as [[d r']| |] eqn:Hw;
      [|discriminate..].
    cbn [fst snd].
    destruct (FallibleDelaying.AddAfter x d (DelayingInterface q)) as [s| |] eqn:Hs;
      [|discriminate..].
    intros [= <-]. exists r, r', d, s. repeat split; done.
  - intros (r & r' & d & s & -> & -> & Hs & ->). cbn [fst snd]. by rewrite Hs.
Qed.


End FallibleFacts.

Section Returning.

Context {T Q R : Type}.
Context `{!DelayingInterface.t T Q, !RateLimiter.t T R}.

(** With a rate limiter that is there and collaborators whose calls return,
    the three methods return, and what they return is what the methods of
    [rateLimitingType Q R] give. *)
Lemma Fallible_methods_return (q : rateLimitingType Q R) (item : T) :
  let v := {| DelayingInterface := DelayingInterface q;
              rateLimiter := Some (rateLimiter q) |} in
  let lift (q' : rateLimitingType Q R) :=
    {| DelayingInterface := DelayingInterface q';
       rateLimiter := Some (rateLimiter q') |} in
  Fallible.AddRateLimited item v
  = Returns (lift (after (AddRateLimited item q)), calls (AddRateLimited item q)) ∧
  Fallible.NumRequeues item v
  = Returns (result (NumRequeues item q), lift (after (NumRequeues item q)),
             calls (NumRequeues item q)) ∧
  Fallible.Forget item v
  = Returns (lift (after (Forget item q)), calls (Forget item q)).
Proof.
  cbn zeta. rewrite after_AddRateLimited, after_NumRequeues, after_Forget.
  unfold AddRateLimited, AddAfter, NumRequeues, Forget.
  rewrite bind_eq, !onRateLimiter_eq. unfold result, after, calls.
  cbn [fst snd]. rewrite onDelaying_eq. done.
Qed.

End Returning.

(** ** The counting strategy keeps what the contracts ask *)

Section CountingFacts.

Context {T : Type} `{!EqDecision T, !Countable T}.

Lemma counting_read_only : ReadOnlyNumRequeues T (countingRateLimiter T).
Proof. by intros r x. Qed.

Lemma counting_resets : ResetsOnForget T (countingRateLimiter T) 0.
Proof.
  intros r x. change ((RateLimiter.NumRequeues x (RateLimiter.Forget x r)).1)
    with (default 0%Z (delete x (failures r) !! x)).
  by rewrite lookup_delete_eq.
Qed.

Lemma counting_counts : CountsPerWhen T (countingRateLimiter T).
Proof.
  split; intros r x.
  - change ((RateLimiter.NumRequeues x (RateLimiter.When x r).2).1)
      with (default 0%Z (<[x := (count x r + 1)%Z]> (failures r) !! x)).
    by rewrite lookup_insert_eq.
  - intros y Hxy.
    change ((RateLimiter.NumRequeues x (RateLimiter.When y r).2).1)
      with (default 0%Z (<[y := (count y r + 1)%Z]> (failures r) !! x)).
    by rewrite lookup_insert_ne.
  - intros y Hxy.
    change ((RateLimiter.NumRequeues x (RateLimiter.Forget y r)).1)
      with (default 0%Z (delete y (failures r) !! x)).
    by rewrite lookup_delete_ne.
  - done.
Qed.

End CountingFacts.

(** ** The facts at work on a queue of strings *)

Lemma NumRequeues_is_the_rate_limiters_witness :
  ReadOnlyNumRequeues string (countingRateLimiter string) ∧
  result (NumRequeues "x" retried) = 3%Z ∧
  after (NumRequeues "x" retried) = retried.
Proof.
  split; [apply counting_read_only|]. split; [reflexivity|].
  apply (NumRequeues_is_the_rate_limiters retried "x"), counting_read_only.
Defined.

Lemma Forget_resets_NumRequeues_witness :
  ResetsOnForget string (countingRateLimiter string) 0 ∧
  reported "x" retried = 3%Z ∧
  reported "x" (after (Forget "x" retried)) = 0%Z.
Proof.
  split; [apply counting_resets|]. split; [reflexivity|].
  apply (Forget_resets_NumRequeues 0 counting_resets
           [MAddRateLimited "x"; MAddRateLimited "y"; MAddRateLimited "x";
            Inherited IGet; MAddRateLimited "x"] fresh "x").
Defined.

Lemma NumRequeues_counts_AddRateLimited_witness :
  CountsPerWhen string (countingRateLimiter string) ∧
  ResetsOnForget string (countingRateLimiter string) 0 ∧
  reported "x" fresh = 0%Z ∧
  reported "x" (runs (replicate 4 (MAddRateLimited "x")) fresh) = 4%Z ∧
  reported "x" retried = 3%Z ∧
  reported "x"
    (runs ([MAddRateLimited "x"; MAddRateLimited "x"]
           ++ MForget "x" :: [MAddRateLimited "x"; MForget "y"]) fresh) = 1%Z.
Proof.
  assert (Hnone : ∀ h : list (method string),
            forallb (λ m, match m with MForget _ => false | _ => true end) h = true →
            MForget "x" ∉ h).
  { intros h Hall Hin. apply forallb_forall with (x := MForget "x") in Hall; [done|].
    by apply list_elem_of_In. }
  split; [apply counting_counts|]. split; [apply counting_resets|].
  split; [reflexivity|].
  destruct (NumRequeues_counts_AddRateLimited counting_counts "x")
    as (Hn & Hh & Hsince).
  split; [exact (Hn fresh 4%nat eq_refl)|]. split.
  - apply (Hh fresh [MAddRateLimited "x"; MAddRateLimited "y"; MAddRateLimited "x";
                     Inherited IGet; MAddRateLimited "x"] eq_refl).
    by apply Hnone.
  - apply (Hsince counting_resets fresh [MAddRateLimited "x"; MAddRateLimited "x"]
             [MAddRateLimited "x"; MForget "y"]).
    intros Hin.
    repeat (apply elem_of_cons in Hin as [Hin|Hin]; [discriminate|]).
    by apply elem_of_nil in Hin.
Defined.


Lemma delay_honored_as_the_delaying_queue_allows_witness :
  ("x" ∉ queue (DelayingInterface fresh)) ∧
  (∀ t : Z, ("x", t) ∈ waiting (DelayingInterface fresh) →
            (now (DelayingInterface fresh)
             + (RateLimiter.When "x" (rateLimiter fresh)).1 ≤ t)%Z) ∧
  shuttingDown (DelayingInterface fresh) = false ∧
  ("x" ∉ processing (DelayingInterface fresh)) ∧
  ¬ observable "x"
      (elapses [400000000%Z; 500000000%Z]
         (DelayingInterface (after (AddRateLimited "x" fresh)))) ∧
  observable "x"
    (elapses [400000000%Z; 600000000%Z]
       (DelayingInterface (after (AddRateLimited "x" fresh)))) ∧
  observable "x"
    (elapses [second; second; second; second]
       (DelayingInterface (after (AddRateLimited "x" retried)))).
Proof.
  assert (Hnil : ∀ l : list string, l = [] → "x" ∉ l).
  { intros l -> Hin. by apply elem_of_nil in Hin. }
  assert (Hnone : ∀ t : Z, ("x", t) ∈ waiting (DelayingInterface fresh) →
            (now (DelayingInterface fresh)
             + (RateLimiter.When "x" (rateLimiter fresh)).1 ≤ t)%Z).
  { intros t Hin. by apply elem_of_nil in Hin. }
  split; [by apply Hnil|]. split; [exact Hnone|].
  split; [reflexivity|]. split; [by apply Hnil|]. split; [|split].
  - apply (delay_honored_as_the_delaying_queue_allows fresh "x"
             [400000000%Z; 500000000%Z]); [by repeat constructor| |done|done].
    by apply Hnil.
  - apply (delay_honored_as_the_delaying_queue_allows fresh "x"
             [400000000%Z; 600000000%Z]); [by repeat constructor|done| |done].
    by apply Hnil.
  - apply (delay_honored_as_the_delaying_queue_allows retried "x"
             [second; second; second; second]);
      [by repeat constructor|done| |done].
    by apply Hnil.
Defined.

(** C5, as it is stated, fails, in four ways.  With ["x"] already visible
    [Get] hands it out at once, and with ["x"] already scheduled one
    nanosecond ahead [Get] hands it out after that nanosecond, although
    [When("x")] asked for one second.  On a queue that has been shut down,
    and on one where a consumer holds ["x"], ["x"] is not handed out when the
    second has gone by.  The delaying queue keeps one entry per item, the
    earlier time winning, absorbs adds after shutdown and keeps an item in
    flight back until [Done]; [AddRateLimited] adds nothing to that. *)
Lemma delayHonored_fails_when_pending_stopped_or_held :
  ¬ delayHonored queued "x" ∧ ¬ delayHonored soon "x" ∧
  ¬ delayHonored stopped "x" ∧ ¬ delayHonored held "x".
Proof.
  assert (Hafter : ∀ q, delayHonored q "x" →
            (RateLimiter.When "x" (rateLimiter q)).1 = second →
            queue (elapses [second] (DelayingInterface (after (AddRateLimited "x" q))))
            = [] → False).
  { intros q Hclaim Hd Hq.
    destruct (Hclaim [second] ltac:(by repeat constructor)) as [_ Hobs].
    rewrite Hd in Hobs. specialize (Hobs ltac:(done)).
    apply observable_queue in Hobs. rewrite Hq in Hobs.
    by apply elem_of_nil in Hobs. }
  repeat split; intros Hclaim.
  - destruct (Hclaim [] (Forall_nil_2 _)) as [Hbefore _].
    apply Hbefore; [reflexivity|].
    exists 1%nat. vm_compute. constructor.
  - destruct (Hclaim [1%Z] ltac:(by repeat constructor)) as [Hbefore _].
    apply Hbefore; [reflexivity|].
    exists 1%nat. vm_compute. constructor.
  - by apply (Hafter stopped).
  - by apply (Hafter held).
Qed.


(** * Further properties of the adapter *)

(** ** One method, then a history *)

Section Steps.

Context {T Q R : Type}.
Context `{!DelayingInterface.t T Q, !RateLimiter.t T R}.

Implicit Types (q : rateLimitingType Q R) (x y : T).
Implicit Types (m : method T) (h : list (method T)).

Lemma result_promoted (i : inherited T) q :
  result (promoted i q) = (direct i (DelayingInterface q)).1.
Proof.
  destruct i; unfold promoted, direct, prod_map;
    rewrite bind_eq;
    unfold Add, Len, Get, Done, ShutDown, ShutDownWithDrain, ShuttingDown, AddAfter;
    by rewrite onDelaying_eq.
Qed.

Lemma calls_then_ret {A B} (c : M T Q R A) (f : A → B) q :
  calls ((c ≫= λ a, mret (f a)) q) = calls (c q).
Proof. rewrite bind_eq. unfold calls at 1. cbn [snd]. apply app_nil_r. Qed.

Lemma calls_promoted (i : inherited T) q :
  ∃ c, calls (promoted i q) = [c] ∧ toRateLimiter c = false.
Proof.
  destruct i; unfold promoted;
    rewrite calls_then_ret;
    unfold Add, Len, Get, Done, ShutDown, ShutDownWithDrain, ShuttingDown, AddAfter;
    rewrite onDelaying_eq; by eexists.
Qed.

Lemma calls_AddRateLimited q x :
  calls (AddRateLimited x q)
  = [CallWhen x (RateLimiter.When x (rateLimiter q)).1;
     CallAddAfter x (RateLimiter.When x (rateLimiter q)).1].
Proof.
  unfold AddRateLimited, AddAfter.
  rewrite bind_eq, onRateLimiter_eq. unfold result, after, calls.
  cbn [fst snd]. by rewrite onDelaying_eq.
Qed.

Lemma after_invoke m q :
  after (invoke m q)
  = {| DelayingInterface := queueStep m (rateLimiter q) (DelayingInterface q);
       rateLimiter := limiterStep m (rateLimiter q) |}.
Proof.
  destruct m as [i|x|x|x]; unfold invoke, queueStep, limiterStep.
  - apply after_promoted.
  - by rewrite (after_then_ret _ (λ _, VNone)), after_AddRateLimited.
  - by rewrite (after_then_ret _ (λ _, VNone)), after_Forget.
  - by rewrite (after_then_ret _ VInt), after_NumRequeues.
Qed.

(** What one method records: a single call that is not [When], or, for
    [AddRateLimited], [When] and the [AddAfter] that goes with it. *)
Lemma calls_invoke m q :
  (∃ c, calls (invoke m q) = [c] ∧ (∀ x d, c ≠ CallWhen x d)
        ∧ toRateLimiter c = negb (isInherited m) ∧ isRequeue m = false)
  ∨ (∃ x d, m = MAddRateLimited x
            ∧ calls (invoke m q) = [CallWhen x d; CallAddAfter x d]).
Proof.
  destruct m as [i|x|x|x]; unfold invoke.
  - left. destruct (calls_promoted i q) as (c & Hc & Hq).
    exists c. repeat split; [done| |done].
    intros x d ->. discriminate.
  - right. rewrite (calls_then_ret _ (λ _, VNone)), calls_AddRateLimited.
    by eexists _, _.
  - left. rewrite (calls_then_ret _ (λ _, VNone)). unfold Forget.
    rewrite onRateLimiter_eq. by eexists.
  - left. rewrite (calls_then_ret _ VInt). unfold NumRequeues.
    rewrite onRateLimiter_eq. by eexists.
Qed.

Lemma rateLimiter_runs h q :
  rateLimiter (runs h q) = foldl (λ r m, limiterStep m r) (rateLimiter q) h.
Proof.
  revert q. induction h as [|m h IH]; intros q; [done|].
  rewrite runs_cons, IH, after_invoke. done.
Qed.

End Steps.

Section NonInterference.

Context {T Q1 Q2 R : Type}.
Context `{!DelayingInterface.t T Q1, !DelayingInterface.t T Q2, !RateLimiter.t T R}.

(** X1. The rate limiter never learns anything of the delaying queue.  Two
    queues whose rate limiters are in the same state, run through the same
    history of calls, end with their rate limiters in the same state and
    report the same [NumRequeues] for every item, whatever their delaying
    queues are and do (they may be of different implementations). *)
Theorem rate_limiter_is_independent_of_the_delaying_queue
    (q1 : rateLimitingType Q1 R) (q2 : rateLimitingType Q2 R)
    (h : list (method T)) :
  rateLimiter q1 = rateLimiter q2 →
  rateLimiter (runs h q1) = rateLimiter (runs h q2) ∧
  ∀ x : T, reported x (runs h q1) = reported x (runs h q2).
Proof.
  intros Heq.
  assert (rateLimiter (runs h q1) = rateLimiter (runs h q2)) as Hrl
    by (by rewrite !rateLimiter_runs, Heq).
  split; [done|]. intros x. by rewrite !reported_eq, Hrl.
Qed.

End NonInterference.

Section HistoryFacts.

Context {T Q R : Type}.
Context `{!DelayingInterface.t T Q, !RateLimiter.t T R}.

Implicit Types (q : rateLimitingType Q R) (x y : T).
Implicit Types (m : method T) (h : list (method T)).

(** X2. A history made of inherited methods only leaves the rate limiter in
    the state it was in, and not one of the calls it makes goes to the rate
    limiter. *)
Theorem inherited_history_never_reaches_the_rate_limiter h q :
  forallb isInherited h = true →
  rateLimiter (runs h q) = rateLimiter q ∧
  forallb (λ c, negb (toRateLimiter c)) (trace h q) = true.
Proof.
  revert q. induction h as [|m h IH]; intros q Hh; [done|].
  cbn [forallb] in Hh. apply andb_prop in Hh as [Hm Hh].
  destruct (IH (after (invoke m q)) Hh) as [IHr IHt].
  rewrite runs_cons, IHr, after_invoke. cbn [trace rateLimiter].
  destruct m as [i| | |]; try discriminate. split; [done|].
  destruct (calls_promoted i q) as (c & Hc & Hq).
  unfold invoke. rewrite Hc. cbn [app forallb]. by rewrite Hq.
Qed.

(** X3. A history made of [Forget] and [NumRequeues] only leaves the delaying
    queue in the state it was in, and every call it makes goes to the rate
    limiter. *)
Theorem bookkeeping_history_never_reaches_the_delaying_queue h q :
  forallb isBookkeeping h = true →
  DelayingInterface (runs h q) = DelayingInterface q ∧
  forallb toRateLimiter (trace h q) = true.
Proof.
  revert q. induction h as [|m h IH]; intros q Hh; [done|].
  cbn [forallb] in Hh. apply andb_prop in Hh as [Hm Hh].
  destruct (IH (after (invoke m q)) Hh) as [IHr IHt].
  rewrite runs_cons, IHr, after_invoke. cbn [trace DelayingInterface].
  rewrite forallb_app, IHt, andb_true_r.
  destruct (calls_invoke m q) as [(c & -> & _ & Hc & _)|(x & d & -> & _)];
    [|discriminate].
  cbn [forallb]. rewrite Hc. by destruct m.
Qed.

(** X4. [Forget(x)] and any inherited method (such as [Done(x)]) can be called
    in either order: the two objects end in the same state, and the
    inherited method returns the same value whether [Forget] came first or
    not. *)
Theorem Forget_commutes_with_inherited_methods (i : inherited T) x q :
  runs [MForget x; Inherited i] q = runs [Inherited i; MForget x] q ∧
  result (promoted i (after (Forget x q))) = result (promoted i q).
Proof.
  split.
  - unfold runs. cbn [foldl]. by rewrite !after_invoke.
  - by rewrite !result_promoted, after_Forget.
Qed.

(** X5. [NumRequeues(x)] reports the same value before and after any
    inherited method, and the two can be called in either order. *)
Theorem NumRequeues_commutes_with_inherited_methods (i : inherited T) x q :
  reported x (after (promoted i q)) = reported x q ∧
  runs [MNumRequeues x; Inherited i] q = runs [Inherited i; MNumRequeues x] q ∧
  result (promoted i (after (NumRequeues x q))) = result (promoted i q).
Proof.
  split; [|split].
  - by rewrite !reported_eq, after_promoted.
  - unfold runs. cbn [foldl]. by rewrite !after_invoke.
  - by rewrite !result_promoted, after_NumRequeues.
Qed.

Lemma directs_app (l1 l2 : list (inherited T)) (s : Q) :
  directs (l1 ++ l2) s = directs l2 (directs l1 s).
Proof. unfold directs. by rewrite foldl_app. Qed.

(** X6. To its delaying queue the rate-limiting queue is a plain client.  The
    state of the delaying queue after any history is the state it reaches
    when called directly with the inherited calls of the history, an
    [AddAfter(item, d)] in place of each [AddRateLimited(item)], [d] being
    the delay the rate limiter gave at that point, and nothing in place of
    [Forget] and [NumRequeues]. *)
Theorem delaying_queue_sees_a_plain_client h q :
  DelayingInterface (runs h q)
  = directs (lower h (rateLimiter q)) (DelayingInterface q).
Proof.
  revert q. induction h as [|m h IH]; intros q; [done|].
  rewrite runs_cons, IH, after_invoke. cbn [lower DelayingInterface rateLimiter].
  rewrite directs_app. by destruct m.
Qed.

Lemma length_trace h q :
  length (trace h q) = (length h + length (filter (λ m, isRequeue m = true) h))%nat.
Proof.
  revert q. induction h as [|m h IH]; intros q; [done|].
  cbn [trace]. rewrite length_app, IH, filter_cons.
  destruct (calls_invoke m q) as [(c & -> & _ & _ & Hm)|(x & d & -> & ->)].
  - rewrite decide_False by (rewrite Hm; discriminate). cbn [length]. lia.
  - rewrite decide_True by done. cbn [length]. lia.
Qed.

Context `{!EqDecision T}.

Lemma paired_trace h q : paired (trace h q) = true.
Proof.
  revert q. induction h as [|m h IH]; intros q; [done|].
  cbn [trace].
  destruct (calls_invoke m q) as [(c & -> & Hc & _)|(x & d & -> & ->)].
  - cbn [app]. destruct c; try apply IH. by destruct (Hc item d).
  - cbn [app paired]. by rewrite !bool_decide_eq_true_2, IH.
Qed.

(** X7. The queue never asks the rate limiter for a delay without scheduling
    the item for that delay: in the calls of any history every [When(x)] is
    followed at once by [AddAfter(x, d)] with the [d] it returned.  Each
    [AddRateLimited] costs those two calls and every other method one. *)
Theorem every_When_is_followed_by_its_AddAfter h q :
  paired (trace h q) = true ∧
  length (trace h q)
  = (length h + length (filter (λ m, isRequeue m = true) h))%nat.
Proof. split; [apply paired_trace|apply length_trace]. Qed.

(** X8. With a strategy that counts per item, [AddRateLimited(x)] raises the
    count of [x] by one whatever the delaying queue does with the add (a
    queue that drops it, because it is shutting down, is no exception: the
    rate limiter is asked first), and leaves the count of every other item
    as it was. *)
Theorem AddRateLimited_counts_whatever_the_queue_does
    (Hcount : CountsPerWhen T R) x q :
  reported x (after (AddRateLimited x q)) = (reported x q + 1)%Z ∧
  ∀ y, y ≠ x → reported y (after (AddRateLimited x q)) = reported y q.
Proof.
  rewrite !reported_eq, after_AddRateLimited. cbn [rateLimiter].
  split; [apply when_counts|].
  intros y Hy. rewrite !reported_eq. cbn [rateLimiter]. by apply when_other.
Qed.

(** X9. With a strategy that counts per item, the count of [x] is the same
    after any history in which neither [AddRateLimited(x)] nor [Forget(x)]
    occurs: calls about other items, reads of any count and calls of the
    inherited methods do not move it. *)
Theorem count_moves_only_with_the_item
    (Hcount : CountsPerWhen T R) x h q :
  forallb (λ m, negb (mentions x m)) h = true →
  reported x (runs h q) = reported x q.
Proof.
  revert q. induction h as [|m h IH]; intros q Hh; [done|].
  cbn [forallb] in Hh. apply andb_prop in Hh as [Hm Hh].
  rewrite runs_cons, IH by done.
  rewrite (reported_after_invoke Hcount).
  - destruct m as [i|y|y|y]; cbn [isAddRateLimited mentions] in *; [lia| |lia..].
    destruct (bool_decide (x = y)); [discriminate|lia].
  - intros ->. cbn [mentions] in Hm.
    by rewrite bool_decide_eq_true_2 in Hm.
Qed.

(** X11. With a strategy whose [NumRequeues] is a read, asking the queue for
    a count is invisible to everything that follows: taking every call of
    [NumRequeues] out of a history changes nothing of the state the history
    ends in. *)
Theorem NumRequeues_calls_can_be_left_out
    (Hread : ReadOnlyNumRequeues T R) h q :
  runs (filter (λ m, isNumRequeues m = false) h) q = runs h q.
Proof.
  revert q. induction h as [|m h IH]; intros q; [done|].
  rewrite filter_cons, (runs_cons m h).
  destruct (isNumRequeues m) eqn:Hm.
  - rewrite decide_False by discriminate. rewrite IH. f_equal.
    destruct m; try discriminate.
    rewrite after_invoke. cbn [queueStep limiterStep].
    rewrite Hread. by destruct q.
  - rewrite decide_True by done. by rewrite runs_cons, IH.
Qed.

End HistoryFacts.

Section ConstructorDefaults.

Context {Q R MetricsProvider Clock : Type}.
Context (RealClock : Clock).
Context (NewDelayingQueueWithConfig :
           DelayingQueueConfig.t MetricsProvider Clock → Q).

(** X10. Spelling a default out changes nothing: a configuration that names
    the real clock builds the queue that the same configuration without a
    clock builds, and [NewNamedRateLimitingQueue] with the empty name builds
    the queue that [NewRateLimitingQueue] builds. *)
Theorem explicit_defaults_build_the_same_queue
    (rl : R) (name : string) (mp : option MetricsProvider) :
  NewRateLimitingQueueWithConfig RealClock NewDelayingQueueWithConfig rl
    (RateLimitingQueueConfig.Build name mp (Some RealClock) None)
  = NewRateLimitingQueueWithConfig RealClock NewDelayingQueueWithConfig rl
      (RateLimitingQueueConfig.Build name mp None None) ∧
  NewNamedRateLimitingQueue RealClock NewDelayingQueueWithConfig rl EmptyString
  = NewRateLimitingQueue RealClock NewDelayingQueueWithConfig rl.
Proof. split; reflexivity. Qed.

End ConstructorDefaults.

(** ** The further facts at work on a queue of strings *)

Lemma rate_limiter_is_independent_of_the_delaying_queue_witness :
  rateLimiter queued = rateLimiter stopped ∧
  rateLimiter
    (runs [MAddRateLimited "x"; Inherited IGet; MAddRateLimited "x"; MForget "y"]
          queued)
  = rateLimiter
      (runs [MAddRateLimited "x"; Inherited IGet; MAddRateLimited "x"; MForget "y"]
            stopped).
Proof.
  split; [reflexivity|].
  apply (rate_limiter_is_independent_of_the_delaying_queue queued stopped
           [MAddRateLimited "x"; Inherited IGet; MAddRateLimited "x"; MForget "y"]
           eq_refl).
Defined.

Lemma inherited_history_never_reaches_the_rate_limiter_witness :
  forallb isInherited
    [Inherited (IAdd "x"); Inherited IGet; Inherited (IDone "x");
     Inherited IShutDown] = true ∧
  rateLimiter
    (runs [Inherited (IAdd "x"); Inherited IGet; Inherited (IDone "x");
           Inherited IShutDown] retried)
  = rateLimiter retried.
Proof.
  split; [reflexivity|].
  apply (inherited_history_never_reaches_the_rate_limiter
           [Inherited (IAdd "x"); Inherited IGet; Inherited (IDone "x");
            Inherited IShutDown] retried eq_refl).
Defined.

Lemma bookkeeping_history_never_reaches_the_delaying_queue_witness :
  forallb isBookkeeping
    [MForget "x"; MNumRequeues "x"; MNumRequeues "y"] = true ∧
  DelayingInterface (runs [MForget "x"; MNumRequeues "x"; MNumRequeues "y"] retried)
  = DelayingInterface retried.
Proof.
  split; [reflexivity|].
  apply (bookkeeping_history_never_reaches_the_delaying_queue
           [MForget "x"; MNumRequeues "x"; MNumRequeues "y"] retried eq_refl).
Defined.

Lemma AddRateLimited_counts_whatever_the_queue_does_witness :
  CountsPerWhen string (countingRateLimiter string) ∧
  shuttingDown (DelayingInterface stopped) = true ∧
  reported "x" (after (AddRateLimited "x" stopped))
  = (reported "x" stopped + 1)%Z.
Proof.
  split; [apply counting_counts|]. split; [reflexivity|].
  apply (AddRateLimited_counts_whatever_the_queue_does counting_counts "x" stopped).
Defined.

Lemma count_moves_only_with_the_item_witness :
  CountsPerWhen string (countingRateLimiter string) ∧
  forallb (λ m, negb (mentions "x" m))
    [MAddRateLimited "y"; MForget "y"; MNumRequeues "x"; Inherited IGet] = true ∧
  reported "x"
    (runs [MAddRateLimited "y"; MForget "y"; MNumRequeues "x"; Inherited IGet]
          retried)
  = reported "x" retried.
Proof.
  split; [apply counting_counts|]. split; [reflexivity|].
  apply (count_moves_only_with_the_item counting_counts "x"
           [MAddRateLimited "y"; MForget "y"; MNumRequeues "x"; Inherited IGet]
           retried).
  reflexivity.
Defined.

Lemma NumRequeues_calls_can_be_left_out_witness :
  ReadOnlyNumRequeues string (countingRateLimiter string) ∧
  runs [MAddRateLimited "x"; Inherited IGet] retried
  = runs [MNumRequeues "x"; MAddRateLimited "x"; MNumRequeues "y";
          Inherited IGet; MNumRequeues "x"] retried.
Proof.
  split; [apply counting_read_only|].
  apply (NumRequeues_calls_can_be_left_out counting_read_only
           [MNumRequeues "x"; MAddRateLimited "x"; MNumRequeues "y";
            Inherited IGet; MNumRequeues "x"] retried).
Defined.
